(** * Rule-based medical diagnosis: the matching engine of [medical_diag.py]

    The development embeds the knowledge base ([DISEASE_RULES],
    [DISEASE_TO_SPECIALIST], [ALL_SYMPTOMS]) and the function [diagnose]
    of [medical_diag.py] and proves properties of the diagnosis results.

    Conventions of the embedding.
    - A Python [str] is a [string]; each [ascii] is one code point in the
      range 0..255, and [str.strip], [str.lower] and [str.replace] are given
      with the behaviour Python has on those code points.  Inputs with code
      points above 255 are outside the model.
    - A Python [set] of strings is a [gset string]; the [dict]
      [DISEASE_RULES], which the code iterates in insertion order, is an
      association list; [DISEASE_TO_SPECIALIST], which is only looked up, is
      a [gmap].
    - [diagnose] prints and returns [None].  What it prints is kept as a
      value of type [outcome]: one of the two messages, or the table rows
      (disease, number of matches, specialist).  Colours, the heading lines
      and the column layout of a row are decoration and are left out. *)

From Stdlib Require Import Ascii NArith.
From stdpp Require Import gmap strings list sorting.


(** ** Python string operations on code points 0..255 *)

Module Str.

(** [str.isspace] on one code point: the ASCII white space of CPython's
    table (tab, line feed, vertical tab, form feed, carriage return, the
    four separators 28..31 and the space) and, above 127, NEL (133) and the
    no-break space (160). *)
Definition isspace (c : ascii) : bool :=
  let n := N_of_ascii c in
  ((9 <=? n) && (n <=? 13) || (28 <=? n) && (n <=? 32)
   || (n =? 133) || (n =? 160))%N.

(** [str.lower] on one code point: A..Z, and the capital letters of the
    Latin-1 block (192..222 without the multiplication sign 215) move up
    by 32; every other code point is its own lower case. *)
Definition lower_char (c : ascii) : ascii :=
  let n := N_of_ascii c in
  if ((65 <=? n) && (n <=? 90)
      || (192 <=? n) && (n <=? 222) && negb (n =? 215))%N
  then ascii_of_N (n + 32) else c.

Fixpoint map (f : ascii → ascii) (s : string) : string :=
  match s with
  | "" => ""
  | String c r => String (f c) (map f r)
  end.

(** [s.lower()] *)
Definition lower (s : string) : string := map lower_char s.

(** [s.replace(old, new)] for one-character [old] and [new]: every
    occurrence is replaced, one for one. *)
Definition replace_char (old new c : ascii) : ascii :=
  if Ascii.eqb c old then new else c.

Definition replace (old new : ascii) (s : string) : string :=
  map (replace_char old new) s.

(** [s.lstrip()] *)
Fixpoint lstrip (s : string) : string :=
  match s with
  | "" => ""
  | String c r => if isspace c then lstrip r else s
  end.

(** [s.rstrip()] *)
Fixpoint rstrip (s : string) : string :=
  match s with
  | "" => ""
  | String c r =>
      match rstrip r with
      | "" => if isspace c then "" else String c ""
      | r' => String c r'
      end
  end.

(** [s.strip()] *)
Definition strip (s : string) : string := rstrip (lstrip s).

(** Truth value of a string: [bool(s)], true unless [s] is empty. *)
Definition truthy (s : string) : bool :=
  match s with "" => false | _ => true end.

(** [sep.join(l)] *)
Fixpoint join (sep : string) (l : list string) : string :=
  match l with
  | [] => ""
  | [x] => x
  | x :: r => x +:+ sep +:+ join sep r
  end.

(** A string that does not start with white space. *)
Definition no_lead (s : string) : Prop :=
  match s with "" => True | String c _ => isspace c = false end.

End Str.

(** ** The token of one raw entry: [s.strip().lower().replace(" ", "_")] *)

Definition normalize (s : string) : string :=
  Str.replace " " "_" (Str.lower (Str.strip s)).

(** The set comprehension at the head of [diagnose]:
    [{s.strip().lower().replace(" ", "_") for s in symptoms if s.strip()}] *)
Definition tokens (symptoms : list string) : gset string :=
  list_to_set (normalize <$> filter (λ s, Str.truthy (Str.strip s) = true) symptoms).

(** ** The knowledge base *)

(** [DISEASE_RULES], in the order of the dict literal. *)
Definition DISEASE_RULES : list (string * gset string) :=
  [ ("flu", {[ "fever"; "cough"; "body_ache"; "fatigue" ]});
    ("common cold", {[ "cough"; "sore_throat"; "runny_nose" ]});
    ("asthma", {[ "shortness_breath"; "wheezing"; "cough" ]});
    ("covid-19", {[ "fever"; "loss_smell"; "cough"; "sore_throat" ]});
    ("pneumonia", {[ "fever"; "cough"; "shortness_breath"; "chest_pain" ]});
    ("migraine", {[ "headache"; "blurred_vision"; "nausea" ]});
    ("diabetes", {[ "fatigue"; "thirst"; "frequent_urination"; "blurred_vision" ]});
    ("hypertension", {[ "headache"; "dizziness"; "blurred_vision" ]});
    ("arthritis", {[ "joint_pain"; "stiffness"; "swelling" ]});
    ("appendicitis", {[ "abdominal_pain"; "vomiting"; "loss_appetite"; "fever" ]});
    ("tuberculosis", {[ "chronic_cough"; "weight_loss"; "night_sweats"; "chest_pain" ]});
    ("depression", {[ "fatigue"; "loss_interest"; "sadness"; "sleep_disturbance" ]});
    ("conjunctivitis", {[ "red_eyes"; "itchy_eyes"; "eye_discharge" ]});
    ("food_poisoning", {[ "vomiting"; "diarrhea"; "nausea"; "abdominal_pain" ]}) ].

(** [DISEASE_TO_SPECIALIST] *)
Definition DISEASE_TO_SPECIALIST : gmap string string :=
  list_to_map
    [ ("flu", "General Physician");
      ("common cold", "General Physician");
      ("diabetes", "Endocrinologist");
      ("hypertension", "Cardiologist");
      ("asthma", "Pulmonologist");
      ("pneumonia", "Pulmonologist");
      ("migraine", "Neurologist");
      ("arthritis", "Rheumatologist");
      ("covid-19", "Infectious Disease Specialist");
      ("appendicitis", "General Surgeon");
      ("tuberculosis", "Pulmonologist");
      ("depression", "Psychiatrist");
      ("conjunctivitis", "Ophthalmologist");
      ("food_poisoning", "Gastroenterologist") ].

(** ** Python's order on [(int, str)] tuples and [sorted] *)

(** [s1 < s2] on [str]: lexicographic on code points. *)
Definition str_lt (s1 s2 : string) : Prop := String.ltb s1 s2.

(** [t1 < t2] on tuples [(matches, disease)]: the first components decide
    unless they are equal. *)
Definition tuple_lt (t1 t2 : nat * string) : Prop :=
  t1.1 < t2.1 ∨ (t1.1 = t2.1 ∧ str_lt t1.2 t2.2).

(** [t1 <= t2], the order [merge_sort] is run with. *)
Definition tuple_le (t1 t2 : nat * string) : Prop :=
  t1.1 < t2.1 ∨ (t1.1 = t2.1 ∧ (t1.2 ≤ t2.2)%string).

#[global] Instance str_lt_dec : RelDecision str_lt.
Proof. intros s1 s2. unfold str_lt. apply _. Defined.

#[global] Instance tuple_lt_dec : RelDecision tuple_lt.
Proof. intros t1 t2. unfold tuple_lt. apply _. Defined.

#[global] Instance tuple_le_dec : RelDecision tuple_le.
Proof. intros t1 t2. unfold tuple_le. apply _. Defined.

(** [sorted(l)] on strings and [sorted(l, reverse=True)] on tuples.  With
    [reverse=True] CPython reverses the list, sorts it ascending and
    reverses it again. *)
Definition sorted_str (l : list string) : list string :=
  merge_sort String.le l.

Definition sorted_reverse (l : list (nat * string)) : list (nat * string) :=
  reverse (merge_sort tuple_le (reverse l)).

(** [ALL_SYMPTOMS = sorted({s for sset in DISEASE_RULES.values() for s in sset})] *)
Definition ALL_SYMPTOMS : list string :=
  sorted_str (elements (⋃ (DISEASE_RULES.*2))).

(** The line [main] prints under the heading "Available symptoms:". *)
Definition available_symptoms_line : string := Str.join ", " ALL_SYMPTOMS.

(** ** [diagnose] *)

(** One printed row of the table of likely diagnoses. *)
Record DiagnosisResult := mkResult {
  disease : string;
  matchCount : nat;
  specialist : string
}.

#[global] Instance DiagnosisResult_eq_dec : EqDecision DiagnosisResult.
Proof. solve_decision. Defined.

(** What one call of [diagnose] prints. *)
Inductive outcome :=
  | Signal (message : string)
  | Likely (rows : list DiagnosisResult).

(** [[(len(sset & rules), dis) for dis, rules in DISEASE_RULES.items()
      if len(sset & rules) > 0]] *)
Definition scores (sset : gset string) : list (nat * string) :=
  omap (λ '(dis, rules),
          if decide (0 < size (sset ∩ rules))
          then Some (size (sset ∩ rules), dis) else None)
       DISEASE_RULES.

(** The body of the [for matches, disease in top] loop. *)
Definition row (t : nat * string) : DiagnosisResult :=
  let '(matches, dis) := t in
  mkResult dis matches (default "Consult specialist" (DISEASE_TO_SPECIALIST !! dis)).

(** [top = sorted(scores, reverse=True)[:3]] *)
Definition top (sc : list (nat * string)) : list (nat * string) :=
  take 3 (sorted_reverse sc).

Definition diagnose (symptoms : list string) : outcome :=
  let sset := tokens symptoms in
  if decide (sset = ∅) then Signal "No symptoms entered."
  else
    let sc := scores sset in
    match sc with
    | [] => Signal "No matching disease found."
    | _ => Likely (row <$> top sc)
    end.

(** The rows of an outcome: none when a message was printed instead. *)
Definition results (o : outcome) : list DiagnosisResult :=
  match o with
  | Signal _ => []
  | Likely rows => rows
  end.

(** ** The claim of the specification about runs of white space

    The specification describes a token as having every run of internal
    white space replaced by a single connector.  [spec_normalize] follows
    those words, to be compared with [normalize]. *)

Fixpoint collapse_runs (in_run : bool) (s : string) : string :=
  match s with
  | "" => ""
  | String c r =>
      if Str.isspace c
      then if in_run then collapse_runs true r
           else String "_" (collapse_runs true r)
      else String c (collapse_runs false r)
  end.

Definition spec_normalize (s : string) : string :=
  collapse_runs false (Str.lower (Str.strip s)).


(** ** Declaration order of the knowledge base, for the tie-break claim *)

(** Position of a disease in [DISEASE_RULES]. *)
Fixpoint decl_index_in (kb : list (string * gset string)) (d : string) : option nat :=
  match kb with
  | [] => None
  | (d', _) :: kb' => if decide (d' = d) then Some 0 else S <$> decl_index_in kb' d
  end.

Definition decl_index (d : string) : option nat := decl_index_in DISEASE_RULES d.

(** [r1] may stand before [r2] under the rule "more matches first, equal
    matches in declaration order". *)
Definition decl_ranked (r1 r2 : DiagnosisResult) : Prop :=
  matchCount r2 < matchCount r1
  ∨ (matchCount r1 = matchCount r2
     ∧ match decl_index (disease r1), decl_index (disease r2) with
       | Some i, Some j => i < j
       | _, _ => False
       end).

#[global] Instance decl_ranked_dec : RelDecision decl_ranked.
Proof.
  intros r1 r2. unfold decl_ranked.
  destruct (decl_index (disease r1)), (decl_index (disease r2)); apply _.
Defined.

(** [r1] stands before [r2] in what [sorted(scores, reverse=True)] gives:
    more matches first, equal matches by disease name, greater name first. *)
Definition name_ranked (r1 r2 : DiagnosisResult) : Prop :=
  matchCount r2 < matchCount r1
  ∨ (matchCount r1 = matchCount r2 ∧ str_lt (disease r2) (disease r1)).

#[global] Instance name_ranked_dec : RelDecision name_ranked.
Proof. intros r1 r2. unfold name_ranked. apply _. Defined.

(** [DISEASE_RULES[d]], when [d] is a key. *)
Definition rules_of (d : string) : option (gset string) :=
  (list_to_map DISEASE_RULES : gmap string (gset string)) !! d.

(** Every disease of the knowledge base has no symptom in [sset]. *)
Definition all_score_zero (sset : gset string) : Prop :=
  Forall (λ e : string * gset string, size (sset ∩ e.2) = 0) DISEASE_RULES.

#[global] Instance all_score_zero_dec sset : Decision (all_score_zero sset).
Proof. unfold all_score_zero. apply _. Defined.

(** ** Splitting an input line: [inp.split(',')] *)

(** [s.split(sep)] for a one-character separator: the pieces between the
    occurrences of [sep]; the empty string gives one empty piece.  (The row
    for an empty list of pieces is never taken.) *)
Fixpoint str_split (sep : ascii) (s : string) : list string :=
  match s with
  | "" => [""]
  | String ch r =>
      if Ascii.eqb ch sep then "" :: str_split sep r
      else match str_split sep r with
           | [] => [String ch ""]
           | p :: ps => String ch p :: ps
           end
  end.

(** The code points of a string, and the number of occurrences of one. *)
Definition chars (s : string) : list ascii := String.list_ascii_of_string s.

Definition count_char (ch : ascii) (s : string) : nat :=
  length (filter (λ x, x = ch) (chars s)).

(** ** The interactive loop and the demonstration run *)

(** [inp.lower() in {"exit", "quit", "q"}] *)
Definition is_exit (inp : string) : bool :=
  bool_decide (Str.lower inp ∈ ["exit"; "quit"; "q"]).

(** [interactive]: the lines [input] returns, in order; [input] raises
    [EOFError] when they are used up.  The value is the list of what the
    calls of [diagnose] print; the banner, the prompts and the farewell are
    left out. *)
Fixpoint interactive (lines : list string) : list outcome :=
  match lines with
  | [] => []
  | inp :: rest =>
      if is_exit inp then []
      else diagnose (str_split "," inp) :: interactive rest
  end.

(** The canned inputs of [demo]. *)
Definition tests : list (list string) :=
  [ ["fever"; "cough"];
    ["headache"; "blurred vision"];
    ["shortness breath"; "wheezing"];
    ["abdominal pain"; "vomiting"];
    ["loss_interest"; "fatigue"];
    ["chronic cough"; "weight loss"];
    ["red eyes"; "itchy eyes"] ].

(** [demo]: what the calls of [diagnose] print, one per canned input. *)
Definition demo : list outcome := diagnose <$> tests.

(** ** Colour support: [_supports_color], the style constants and [c] *)

(** What [_supports_color] reads: three environment variables ([None] when
    unset), [sys.platform] and [sys.stdout.isatty()]. *)
Record environ := mkEnviron {
  NO_COLOR : option string;
  ANSICON : option string;
  TERM : option string;
  platform : string;
  stdout_isatty : bool
}.

(** [os.getenv(name, default)] *)
Definition getenv (var : option string) (dflt : string) : string :=
  default dflt var.

(** [_supports_color], as a truth value: the last line returns [term] itself
    when it is empty and a Boolean otherwise. *)
Definition _supports_color (e : environ) : bool :=
  if decide (getenv (NO_COLOR e) "0" = "1") then false
  else if String.prefix "win" (platform e) && bool_decide (ANSICON e = None)
  then false
  else if negb (stdout_isatty e) then false
  else
    let term := getenv (TERM e) "" in
    Str.truthy term && bool_decide (term ∉ ["dumb"; ""]).

Definition USE_COLOR (e : environ) : bool := _supports_color e.

(** The escape character, code point 27. *)
Definition ESC : ascii := "027"%char.

Definition style_const (e : environ) (code : string) : string :=
  if USE_COLOR e then String ESC code else "".

Definition RESET (e : environ) : string := style_const e "[0m".
Definition BOLD (e : environ) : string := style_const e "[1m".
Definition DIM (e : environ) : string := style_const e "[2m".
Definition CYAN (e : environ) : string := style_const e "[36m".
Definition GREEN (e : environ) : string := style_const e "[32m".
Definition YELLOW (e : environ) : string := style_const e "[33m".
Definition MAGENTA (e : environ) : string := style_const e "[35m".
Definition RED (e : environ) : string := style_const e "[31m".
Definition BLUE (e : environ) : string := style_const e "[34m".

(** [c(text, style)] *)
Definition c (e : environ) (text style : string) : string :=
  if USE_COLOR e then style +:+ text +:+ RESET e else text.

(** ** The operations on small inputs *)

Example strip_demo : Str.strip "  Blurred  Vision " = "Blurred  Vision".
Proof. reflexivity. Qed.

Example normalize_demo : normalize " Blurred Vision " = "blurred_vision".
Proof. reflexivity. Qed.

Example spec_normalize_demo :
  spec_normalize " Chest   Pain " = "chest_pain".
Proof. reflexivity. Qed.

(** ** Lemmas on the string operations *)

Module StrFacts.
Import Str.

Lemma lower_char_idemp c : lower_char (lower_char c) = lower_char c.
Proof. by destruct c as [[] [] [] [] [] [] [] []]. Qed.

Lemma isspace_lower_char c : isspace (lower_char c) = isspace c.
Proof. by destruct c as [[] [] [] [] [] [] [] []]. Qed.

Lemma lower_char_space c : lower_char c = " "%char ↔ c = " "%char.
Proof. destruct c as [[] [] [] [] [] [] [] []]; by vm_compute. Qed.

Lemma lower_char_underscore : lower_char "_" = "_"%char.
Proof. reflexivity. Qed.

Lemma isspace_replace_char c :
  isspace (replace_char " " "_" c) = true → isspace c = true.
Proof. by destruct c as [[] [] [] [] [] [] [] []]. Qed.

Lemma replace_char_not_space c :
  isspace c = false → replace_char " " "_" c = c.
Proof. by destruct c as [[] [] [] [] [] [] [] []]. Qed.

Lemma replace_char_idemp c :
  replace_char " " "_" (replace_char " " "_" c) = replace_char " " "_" c.
Proof. by destruct c as [[] [] [] [] [] [] [] []]. Qed.

Lemma lower_replace_char c :
  lower_char (replace_char " " "_" c) = replace_char " " "_" (lower_char c).
Proof. by destruct c as [[] [] [] [] [] [] [] []]. Qed.

Lemma map_map f g s : map f (map g s) = map (λ c, f (g c)) s.
Proof. induction s as [|c r IH]; simpl; by f_equal. Qed.

Lemma map_ext f g s : (∀ c, f c = g c) → map f s = map g s.
Proof. intros E. induction s as [|c r IH]; simpl; by f_equal. Qed.

Lemma map_nil_inv f s : map f s = "" → s = "".
Proof. by destruct s. Qed.

Lemma length_map f s : String.length (map f s) = String.length s.
Proof. induction s as [|c r IH]; simpl; by f_equal. Qed.

Lemma get_map f s i : String.get i (map f s) = f <$> String.get i s.
Proof.
  revert i. induction s as [|c r IH]; intros [|i]; simpl; try done.
Qed.

Lemma no_lead_lstrip s : no_lead (lstrip s).
Proof.
  induction s as [|c r IH]; simpl; [done|].
  destruct (isspace c) eqn:E; simpl; done.
Qed.

Lemma lstrip_id s : no_lead s → lstrip s = s.
Proof. destruct s as [|c r]; simpl; [done|]. by intros ->. Qed.

Lemma rstrip_cons c r :
  rstrip (String c r) =
    if truthy (rstrip r) then String c (rstrip r)
    else if isspace c then "" else String c "".
Proof. simpl. by destruct (rstrip r). Qed.

Lemma rstrip_fix_cons c r :
  rstrip (String c r) = String c r ↔
  rstrip r = r ∧ (r = "" → isspace c = false).
Proof.
  rewrite rstrip_cons. split.
  - destruct (rstrip r) as [|c' r'] eqn:E; simpl.
    + destruct (isspace c) eqn:Ec; [done|]. intros [= <-]. done.
    + intros [= <-]. done.
  - intros [-> Hc]. destruct r as [|c' r']; simpl; [|done].
    by rewrite Hc.
Qed.

Lemma rstrip_idemp s : rstrip (rstrip s) = rstrip s.
Proof.
  induction s as [|c r IH]; [done|].
  rewrite rstrip_cons. destruct (rstrip r) as [|c' r'] eqn:E; cbn [truthy].
  - destruct (isspace c) eqn:Ec; [done|]. simpl. by rewrite Ec.
  - apply rstrip_fix_cons. split; [done | discriminate].
Qed.

Lemma no_lead_rstrip s : no_lead s → no_lead (rstrip s).
Proof.
  destruct s as [|c r]; [done|]. simpl. intros Hc.
  destruct (rstrip r); simpl; by rewrite ?Hc.
Qed.

Lemma strip_fix s : no_lead s → rstrip s = s → strip s = s.
Proof. intros H1 H2. unfold strip. by rewrite lstrip_id. Qed.

Lemma no_lead_strip s : no_lead (strip s).
Proof. apply no_lead_rstrip, no_lead_lstrip. Qed.

Lemma rstrip_strip s : rstrip (strip s) = strip s.
Proof. apply rstrip_idemp. Qed.

Lemma strip_idemp s : strip (strip s) = strip s.
Proof. apply strip_fix; [apply no_lead_strip | apply rstrip_strip]. Qed.

(** A character map that keeps white space white and the rest not
    commutes with stripping. *)
Section map_strip.
Variable f : ascii → ascii.
Hypothesis f_space : ∀ c, isspace (f c) = isspace c.

Lemma lstrip_map s : lstrip (map f s) = map f (lstrip s).
Proof.
  induction s as [|c r IH]; simpl; [done|].
  rewrite f_space. by destruct (isspace c).
Qed.

Lemma rstrip_map s : rstrip (map f s) = map f (rstrip s).
Proof.
  induction s as [|c r IH]; simpl; [done|].
  rewrite IH, f_space.
  destruct (rstrip r); simpl; [by destruct (isspace c) | done].
Qed.

Lemma strip_map s : strip (map f s) = map f (strip s).
Proof. unfold strip. by rewrite lstrip_map, rstrip_map. Qed.
End map_strip.

Lemma strip_lower s : strip (lower s) = lower (strip s).
Proof. apply strip_map, isspace_lower_char. Qed.

(** Replacing spaces by underscores keeps a stripped string stripped. *)
Lemma no_lead_replace s : no_lead s → no_lead (replace " " "_" s).
Proof.
  destruct s as [|c r]; simpl; [done|]. intros Hc.
  by rewrite replace_char_not_space.
Qed.

Lemma rstrip_replace_fix s :
  rstrip s = s → rstrip (replace " " "_" s) = replace " " "_" s.
Proof.
  induction s as [|c r IH]; [done|].
  intros [Hr Hc]%rstrip_fix_cons. apply rstrip_fix_cons. split.
  - by apply IH.
  - intros ->%map_nil_inv.
    by rewrite replace_char_not_space; auto.
Qed.

Lemma strip_replace_fix s :
  strip s = s → strip (replace " " "_" s) = replace " " "_" s.
Proof.
  intros Hs. apply strip_fix.
  - apply no_lead_replace. rewrite <-Hs. apply no_lead_strip.
  - apply rstrip_replace_fix. rewrite <-Hs. apply rstrip_strip.
Qed.

Lemma lower_idemp s : lower (lower s) = lower s.
Proof. unfold lower. rewrite map_map. apply map_ext, lower_char_idemp. Qed.

Lemma lower_replace s :
  lower (replace " " "_" s) = replace " " "_" (lower s).
Proof.
  unfold lower, replace. rewrite !map_map. apply map_ext, lower_replace_char.
Qed.

Lemma replace_idemp s :
  replace " " "_" (replace " " "_" s) = replace " " "_" s.
Proof. unfold replace. rewrite map_map. apply map_ext, replace_char_idemp. Qed.

Lemma truthy_map f s : truthy (map f s) = truthy s.
Proof. by destruct s. Qed.

End StrFacts.

(** ** Normalisation of one entry *)

Section normalisation.
Import Str StrFacts.

Lemma strip_normalize s : strip (normalize s) = normalize s.
Proof.
  unfold normalize. apply strip_replace_fix.
  by rewrite strip_lower, strip_idemp.
Qed.

Lemma lower_normalize s : lower (normalize s) = normalize s.
Proof. unfold normalize. by rewrite lower_replace, lower_idemp. Qed.

Lemma normalize_chars s :
  normalize s =
  map (λ c, if Ascii.eqb c " " then "_"%char else lower_char c) (strip s).
Proof.
  unfold normalize, replace, lower. rewrite map_map. apply map_ext.
  intros c. unfold replace_char.
  destruct (Ascii.eqb_spec (lower_char c) " ") as [E|E];
    destruct (Ascii.eqb_spec c " ") as [E'|E']; try done.
  - destruct E'. by apply lower_char_space.
  - by subst c.
Qed.

Lemma elem_of_tokens symptoms t :
  t ∈ tokens symptoms ↔
  ∃ s, s ∈ symptoms ∧ strip s ≠ "" ∧ t = normalize s.
Proof.
  unfold tokens. rewrite elem_of_list_to_set, list_elem_of_fmap.
  split.
  - intros (s & -> & [Hs ?]%list_elem_of_filter). exists s.
    split_and!; [done | | done]. by destruct (strip s).
  - intros (s & ? & Hs & ->). exists s. split; [done|].
    apply list_elem_of_filter. split; [|done]. by destruct (strip s).
Qed.

End normalisation.

(** C8.  Normalising a token again gives the same token: for every raw
    entry, the token [normalize] produces is a fixed point of [normalize]. *)
Theorem normalize_idempotent (raw : string) :
  normalize (normalize raw) = normalize raw.
Proof.
  unfold normalize at 1.
  rewrite strip_normalize, lower_normalize.
  unfold normalize. apply StrFacts.replace_idemp.
Qed.

(** C4, as the specification words it, fails: a run of two spaces inside
    an entry becomes two connectors, not one. *)
Lemma normalize_run_not_collapsed :
  normalize "chest  pain" = "chest__pain"
  ∧ spec_normalize "chest  pain" = "chest_pain"
  ∧ normalize "chest  pain" ≠ spec_normalize "chest  pain".
Proof. split_and!; [reflexivity | reflexivity | discriminate]. Qed.

(** C4, amended.  The token of a raw entry is the trimmed entry in which,
    position by position, every space is replaced by one connector ["_"]
    and every other code point by its lower case (so the token is lower
    case, has no white space at either end, and is as long as the trimmed
    entry); the token set of an input holds exactly the tokens of the
    entries that are not empty after trimming. *)
Theorem normalize_tokens_spec (symptoms : list string) :
  (∀ raw,
      Str.lower (normalize raw) = normalize raw
      ∧ Str.strip (normalize raw) = normalize raw
      ∧ String.length (normalize raw) = String.length (Str.strip raw)
      ∧ ∀ i, String.get i (normalize raw) =
             (λ c, if Ascii.eqb c " " then "_"%char else Str.lower_char c)
               <$> String.get i (Str.strip raw))
  ∧ (∀ t, t ∈ tokens symptoms ↔
          ∃ raw, raw ∈ symptoms ∧ Str.strip raw ≠ "" ∧ t = normalize raw).
Proof.
  split; [|apply elem_of_tokens].
  intros raw. split_and!.
  - apply lower_normalize.
  - apply strip_normalize.
  - by rewrite normalize_chars, StrFacts.length_map.
  - intros i. by rewrite normalize_chars, StrFacts.get_map.
Qed.

(** ** The candidates and their ranking *)

Lemma DISEASE_RULES_keys_NoDup : NoDup (DISEASE_RULES.*1).
Proof. apply (bool_decide_unpack _). by vm_compute. Qed.

Lemma rules_of_elem d rules :
  (d, rules) ∈ DISEASE_RULES → rules_of d = Some rules.
Proof.
  intros H. unfold rules_of.
  by apply elem_of_list_to_map_1; [apply DISEASE_RULES_keys_NoDup|].
Qed.

Lemma elem_of_scores sset t :
  t ∈ scores sset ↔
  ∃ dis rules, (dis, rules) ∈ DISEASE_RULES
               ∧ t = (size (sset ∩ rules), dis) ∧ 0 < size (sset ∩ rules).
Proof.
  unfold scores. rewrite list_elem_of_omap. split.
  - intros ([dis rules] & Hin & Ht). case_decide; [|done].
    injection Ht as <-. by exists dis, rules.
  - intros (dis & rules & Hin & -> & Hpos). exists (dis, rules).
    split; [done|]. by rewrite decide_True.
Qed.

Lemma scores_names_sublist sset : (scores sset).*2 `sublist_of` DISEASE_RULES.*1.
Proof.
  unfold scores. induction DISEASE_RULES as [|[dis rules] kb IH]; simpl; [done|].
  case_decide; simpl; [by apply sublist_skip | by apply sublist_cons].
Qed.

Lemma scores_NoDup sset : NoDup (scores sset).
Proof.
  apply (NoDup_fmap_1 snd).
  eapply sublist_NoDup; [apply DISEASE_RULES_keys_NoDup | apply scores_names_sublist].
Qed.

Lemma scores_nil sset : scores sset = [] ↔ all_score_zero sset.
Proof.
  unfold all_score_zero. rewrite Forall_forall. split.
  - intros Hnil [dis rules] Hin. simpl.
    destruct (decide (0 < size (sset ∩ rules))) as [Hpos|]; [|lia].
    assert ((size (sset ∩ rules), dis) ∈ scores sset) as Hs
      by (apply elem_of_scores; eauto).
    rewrite Hnil in Hs. by apply elem_of_nil in Hs.
  - intros Hz. destruct (scores sset) as [|t sc] eqn:E; [done|].
    assert (t ∈ scores sset) as (dis & rules & Hin & _ & Hpos)%elem_of_scores
      by (rewrite E; left).
    apply Hz in Hin. simpl in Hin. lia.
Qed.

(** The order on tuples is a total preorder, strict on distinct tuples. *)

Lemma str_le_ne_lt s1 s2 : (s1 ≤ s2)%string → s1 ≠ s2 → str_lt s1 s2.
Proof.
  unfold String.le, str_lt, String.leb, String.ltb. intros Hle Hne.
  destruct (String.compare s1 s2) eqn:E; try done.
  by apply String.compare_eq_iff in E.
Qed.

#[global] Instance tuple_le_trans : Transitive tuple_le.
Proof.
  intros [m1 d1] [m2 d2] [m3 d3]. unfold tuple_le. simpl.
  intros [?|[-> H12]] [?|[-> H23]]; [left; lia..|].
  right. split; [done|]. by etrans.
Qed.

#[global] Instance tuple_le_total : Total tuple_le.
Proof.
  intros [m1 d1] [m2 d2]. unfold tuple_le. simpl.
  destruct (lt_eq_lt_dec m1 m2) as [[?| ->]|?]; [by left; left| |by right; left].
  destruct (total String.le d1 d2); [left|right]; by right.
Qed.

Lemma tuple_le_ne_lt t1 t2 : tuple_le t1 t2 → t1 ≠ t2 → tuple_lt t1 t2.
Proof.
  destruct t1 as [m1 d1], t2 as [m2 d2]. unfold tuple_le, tuple_lt. simpl.
  intros [?|[-> Hle]] Hne; [by left|]. right. split; [done|].
  apply str_le_ne_lt; [done|]. congruence.
Qed.

Lemma StronglySorted_strict {A} (R : relation A) (l : list A) :
  StronglySorted R l → NoDup l → StronglySorted (λ x y, R x y ∧ x ≠ y) l.
Proof.
  induction 1 as [|x l Hl IH Hx]; intros Hnd; [constructor|].
  apply NoDup_cons in Hnd as [Hnotin Hnd]. constructor; [by apply IH|].
  rewrite Forall_forall in Hx |- *. intros y Hy. split; [by apply Hx|].
  by intros ->.
Qed.

Lemma StronglySorted_mono {A} (R1 R2 : relation A) (l : list A) :
  (∀ x y, R1 x y → R2 x y) → StronglySorted R1 l → StronglySorted R2 l.
Proof.
  intros HR. induction 1 as [|x l Hl IH Hx]; constructor; [done|].
  eapply Forall_impl; [done|]. auto.
Qed.

Lemma sorted_reverse_Permutation l : sorted_reverse l ≡ₚ l.
Proof.
  unfold sorted_reverse.
  by rewrite reverse_Permutation, merge_sort_Permutation, reverse_Permutation.
Qed.

Lemma sorted_reverse_sorted l : StronglySorted (flip tuple_le) (sorted_reverse l).
Proof.
  unfold sorted_reverse. apply Sorted_StronglySorted; [apply _|].
  apply Sorted_reverse, Sorted_merge_sort, _.
Qed.

Lemma elem_of_top sc t : t ∈ top sc → t ∈ sc.
Proof.
  intros Ht%(subseteq_take 3). by rewrite sorted_reverse_Permutation in Ht.
Qed.

Lemma top_NoDup sc : NoDup sc → NoDup (top sc).
Proof.
  intros Hnd. eapply sublist_NoDup; [|apply sublist_take].
  by rewrite sorted_reverse_Permutation.
Qed.

Lemma top_sorted sc : NoDup sc → StronglySorted (flip tuple_lt) (top sc).
Proof.
  intros Hnd. eapply StronglySorted_mono; last first.
  - apply StronglySorted_strict; [|by apply top_NoDup].
    apply (StronglySorted_app_1_l _ _ (drop 3 (sorted_reverse sc))).
    unfold top. rewrite take_drop. apply sorted_reverse_sorted.
  - intros x y [Hle Hne]. by apply tuple_le_ne_lt.
Qed.

Lemma length_top sc : length (top sc) = 3 `min` length sc.
Proof.
  unfold top.
  by rewrite length_take, (Permutation_length (sorted_reverse_Permutation sc)).
Qed.

Lemma results_diagnose symptoms :
  results (diagnose symptoms) =
    if decide (tokens symptoms = ∅) then []
    else row <$> top (scores (tokens symptoms)).
Proof.
  unfold diagnose. case_decide; [done|].
  by destruct (scores (tokens symptoms)).
Qed.

Lemma row_ranked t1 t2 : tuple_lt t2 t1 → name_ranked (row t1) (row t2).
Proof.
  destruct t1 as [m1 d1], t2 as [m2 d2]. unfold tuple_lt, name_ranked. simpl.
  intros [?|[-> ?]]; [by left | by right].
Qed.

Lemma elem_of_results symptoms r :
  r ∈ results (diagnose symptoms) →
  ∃ dis rules, (dis, rules) ∈ DISEASE_RULES
    ∧ disease r = dis
    ∧ matchCount r = size (tokens symptoms ∩ rules)
    ∧ 0 < matchCount r.
Proof.
  rewrite results_diagnose. case_decide; [by intros ?%elem_of_nil|].
  intros (t & -> & Ht%elem_of_top)%list_elem_of_fmap.
  apply elem_of_scores in Ht as (dis & rules & Hin & -> & Hpos).
  by exists dis, rules.
Qed.

(** ** The claims on [diagnose] *)

(** C1, as the specification words it, fails: for the entries "fever" and
    "cough" three diseases have two matches each, and pneumonia, declared
    fifth, is printed before flu, declared first. *)
Lemma ties_not_in_declaration_order :
  ¬ StronglySorted decl_ranked (results (diagnose ["fever"; "cough"])).
Proof. apply (bool_decide_unpack _). by vm_compute. Qed.

(** C1, amended.  For every input the printed rows are sorted by the number
    of matches, greatest first, and rows with the same number of matches
    are in descending order of the disease name (code point order). *)
Theorem results_sorted_by_count_then_name (symptoms : list string) :
  StronglySorted name_ranked (results (diagnose symptoms)).
Proof.
  rewrite results_diagnose. case_decide; [constructor|].
  eapply StronglySorted_fmap; [|apply top_sorted, scores_NoDup].
  intros x y Hxy. by apply row_ranked.
Qed.

(** C5.  In the result of every input, the number of matches of a row is
    the size of the intersection of the token set of the input with the
    symptom set the knowledge base gives for the disease of that row. *)
Theorem matchCount_is_intersection_size (symptoms : list string) :
  Forall (λ r, ∃ rules, rules_of (disease r) = Some rules
                 ∧ matchCount r = size (tokens symptoms ∩ rules))
         (results (diagnose symptoms)).
Proof.
  apply Forall_forall. intros r (dis & rules & Hin & <- & Hm & _)%elem_of_results.
  exists rules. split; [by apply rules_of_elem | done].
Qed.

(** C6.  Every input gives at most three rows, and every row has at least
    one match. *)
Theorem results_bound (symptoms : list string) :
  length (results (diagnose symptoms)) ≤ 3
  ∧ Forall (λ r, 1 ≤ matchCount r) (results (diagnose symptoms)).
Proof.
  split.
  - rewrite results_diagnose. case_decide; simpl; [lia|].
    rewrite length_fmap, length_top. lia.
  - apply Forall_forall.
    intros r (dis & rules & _ & _ & _ & Hpos)%elem_of_results. lia.
Qed.

(** C7.  [diagnose] is a total function with exactly three kinds of
    outcome: the message "No symptoms entered." when the token set is empty;
    the message "No matching disease found." when the token set is not empty
    and every disease scores zero; at least one row otherwise.  So there are
    no rows exactly when the token set is empty or every disease scores
    zero. *)
Theorem diagnose_outcomes (symptoms : list string) :
  ((tokens symptoms = ∅
    ∧ diagnose symptoms = Signal "No symptoms entered.")
   ∨ (tokens symptoms ≠ ∅ ∧ all_score_zero (tokens symptoms)
      ∧ diagnose symptoms = Signal "No matching disease found.")
   ∨ (tokens symptoms ≠ ∅ ∧ ¬ all_score_zero (tokens symptoms)
      ∧ ∃ rows, rows ≠ [] ∧ diagnose symptoms = Likely rows))
  ∧ (results (diagnose symptoms) = [] ↔
     tokens symptoms = ∅ ∨ all_score_zero (tokens symptoms)).
Proof.
  assert (∀ sc : list (nat * string), sc ≠ [] → row <$> top sc ≠ []) as Htop.
  { intros sc Hsc Hnil. apply fmap_nil_inv in Hnil.
    apply (f_equal length) in Hnil. rewrite length_top in Hnil.
    destruct sc; [done|]. simpl in Hnil. lia. }
  unfold diagnose. cbv zeta.
  destruct (decide (tokens symptoms = ∅)) as [He|He].
  { split; [left; by split | simpl; split; auto]. }
  destruct (scores (tokens symptoms)) as [|t sc] eqn:Hsc.
  - apply scores_nil in Hsc.
    split; [right; left; by split_and! | simpl; split; auto].
  - assert (¬ all_score_zero (tokens symptoms)) as Hnz
      by (rewrite <-scores_nil, Hsc; done).
    split.
    + right; right. split_and!; [done..|].
      eexists. split; [|reflexivity]. by apply Htop.
    + simpl. split; [|by intros [?|?]].
      intros Hnil. by apply Htop in Hnil.
Qed.

(** C10.  The outcome of [diagnose] is determined by the token set of its
    input: two inputs with the same token set have the same outcome. *)
Theorem diagnose_depends_on_tokens (symptoms1 symptoms2 : list string) :
  tokens symptoms1 = tokens symptoms2 →
  diagnose symptoms1 = diagnose symptoms2.
Proof. unfold diagnose. by intros ->. Qed.

Lemma diagnose_depends_on_tokens_witness :
  tokens ["fever"; " Cough "; "FEVER"; ""] = tokens ["cough"; "fever"]
  ∧ diagnose ["fever"; " Cough "; "FEVER"; ""] = diagnose ["cough"; "fever"].
Proof.
  split; [by vm_compute|].
  apply (diagnose_depends_on_tokens ["fever"; " Cough "; "FEVER"; ""] ["cough"; "fever"]).
  by vm_compute.
Defined.

(** C2, as the specification words it, fails: migraine has two of the
    tokens of the entries "headache" and "blurred vision", not one, and it
    is migraine that is printed first. *)
Lemma headache_blurred_vision_not_as_stated :
  ¬ ((1, "migraine") ∈ scores (tokens ["headache"; "blurred vision"])
     ∧ (2, "hypertension") ∈ scores (tokens ["headache"; "blurred vision"])
     ∧ (1, "diabetes") ∈ scores (tokens ["headache"; "blurred vision"])
     ∧ head (results (diagnose ["headache"; "blurred vision"]))
       = Some (mkResult "hypertension" 2 "Cardiologist")).
Proof. apply (bool_decide_unpack _). by vm_compute. Qed.

(** C2, amended.  For the entries "headache" and "blurred vision" the
    candidates are migraine with 2 matches, diabetes with 1 and
    hypertension with 2; migraine is printed first, then hypertension, then
    diabetes. *)
Theorem diagnose_headache_blurred_vision :
  scores (tokens ["headache"; "blurred vision"])
    = [(2, "migraine"); (1, "diabetes"); (2, "hypertension")]
  ∧ diagnose ["headache"; "blurred vision"]
    = Likely [ mkResult "migraine" 2 "Neurologist";
               mkResult "hypertension" 2 "Cardiologist";
               mkResult "diabetes" 1 "Endocrinologist" ].
Proof. split; by vm_compute. Qed.

(** C3, as the specification words it, fails: for the entries "fever" and
    "cough" the rows are not flu, covid-19, pneumonia in that order, and
    the first row is not flu. *)
Lemma fever_cough_not_as_stated :
  ¬ ((λ r, (disease r, matchCount r)) <$> results (diagnose ["fever"; "cough"])
     = [("flu", 2); ("covid-19", 2); ("pneumonia", 2)])
  ∧ disease <$> head (results (diagnose ["fever"; "cough"])) ≠ Some "flu".
Proof. split; apply (bool_decide_unpack _); by vm_compute. Qed.

(** C3, amended.  For the entries "fever" and "cough" the first row is
    pneumonia with 2 matches; flu and covid-19 follow, in this order, with
    2 matches each. *)
Theorem diagnose_fever_cough :
  diagnose ["fever"; "cough"]
  = Likely [ mkResult "pneumonia" 2 "Pulmonologist";
             mkResult "flu" 2 "General Physician";
             mkResult "covid-19" 2 "Infectious Disease Specialist" ].
Proof. by vm_compute. Qed.

(** ** The list of known symptoms *)

Lemma ALL_SYMPTOMS_Permutation :
  ALL_SYMPTOMS ≡ₚ elements (⋃ (DISEASE_RULES.*2)).
Proof. apply merge_sort_Permutation. Qed.

(** C9.  [ALL_SYMPTOMS], which [main] prints joined by commas, holds
    exactly the symptom tokens of the knowledge base entries, each once, in
    strictly ascending code point order. *)
Theorem ALL_SYMPTOMS_sorted_distinct :
  (∀ s, s ∈ ALL_SYMPTOMS ↔ ∃ dis rules, (dis, rules) ∈ DISEASE_RULES ∧ s ∈ rules)
  ∧ NoDup ALL_SYMPTOMS
  ∧ StronglySorted str_lt ALL_SYMPTOMS
  ∧ available_symptoms_line = Str.join ", " ALL_SYMPTOMS.
Proof.
  assert (NoDup ALL_SYMPTOMS) as Hnd.
  { rewrite ALL_SYMPTOMS_Permutation. apply NoDup_elements. }
  split_and!; [|done| |done].
  - intros s. rewrite ALL_SYMPTOMS_Permutation, elem_of_elements, elem_of_union_list.
    split.
    + intros (rules & ([dis rules'] & -> & Hin)%list_elem_of_fmap & Hs).
      by exists dis, rules'.
    + intros (dis & rules & Hin & Hs). exists rules. split; [|done].
      apply list_elem_of_fmap. by exists (dis, rules).
  - eapply StronglySorted_mono; last first.
    + apply StronglySorted_strict; [|exact Hnd].
      apply StronglySorted_merge_sort; apply _.
    + intros x y [Hle Hne]. by apply str_le_ne_lt.
Qed.

Example ALL_SYMPTOMS_value :
  ALL_SYMPTOMS =
  [ "abdominal_pain"; "blurred_vision"; "body_ache"; "chest_pain";
    "chronic_cough"; "cough"; "diarrhea"; "dizziness"; "eye_discharge";
    "fatigue"; "fever"; "frequent_urination"; "headache"; "itchy_eyes";
    "joint_pain"; "loss_appetite"; "loss_interest"; "loss_smell"; "nausea";
    "night_sweats"; "red_eyes"; "runny_nose"; "sadness"; "shortness_breath";
    "sleep_disturbance"; "sore_throat"; "stiffness"; "swelling"; "thirst";
    "vomiting"; "weight_loss"; "wheezing" ].
Proof. by vm_compute. Qed.

(** ** The remaining scenarios of the demonstration run *)

Example diagnose_blank : diagnose [" "; ""] = Signal "No symptoms entered.".
Proof. by vm_compute. Qed.

Example diagnose_empty : diagnose [] = Signal "No symptoms entered.".
Proof. by vm_compute. Qed.

Example diagnose_unknown :
  diagnose ["xyz_unknown_symptom"] = Signal "No matching disease found.".
Proof. by vm_compute. Qed.

Example diagnose_red_itchy_eyes :
  diagnose ["red eyes"; "itchy eyes"]
  = Likely [ mkResult "conjunctivitis" 2 "Ophthalmologist" ].
Proof. by vm_compute. Qed.

(** Permuting or repeating entries does not change the token set. *)
Lemma tokens_Permutation l1 l2 : l1 ≡ₚ l2 → tokens l1 = tokens l2.
Proof.
  intros Hp. apply set_eq. intros t. rewrite !elem_of_tokens.
  by setoid_rewrite Hp.
Qed.

Lemma tokens_repeat l : tokens (l ++ l) = tokens l.
Proof.
  apply set_eq. intros t. rewrite !elem_of_tokens.
  split.
  - intros (s & [?|?]%elem_of_app & ? & ?); by exists s.
  - intros (s & ? & ? & ?). exists s. split; [|done]. apply elem_of_app. by left.
Qed.

(** ** Further properties of [diagnose] *)

Lemma scores_empty : scores ∅ = [].
Proof. by vm_compute. Qed.

Lemma results_top symptoms :
  results (diagnose symptoms) = row <$> top (scores (tokens symptoms)).
Proof.
  rewrite results_diagnose. case_decide as He; [|done].
  by rewrite He, scores_empty.
Qed.

Lemma disease_row sc : disease <$> (row <$> sc) = sc.*2.
Proof. rewrite <-list_fmap_compose. apply list_fmap_ext. by intros ? [m d]. Qed.

Lemma length_scores sset :
  length (scores sset)
  = length (filter (λ e : string * gset string, 0 < size (sset ∩ e.2)) DISEASE_RULES).
Proof.
  unfold scores. induction DISEASE_RULES as [|[dis rules] kb IH]; [done|].
  rewrite filter_cons. csimpl.
  destruct (decide (0 < size (sset ∩ rules))); csimpl; by rewrite IH.
Qed.

Lemma top_below sc t x :
  t ∈ sc → t ∉ top sc → x ∈ top sc → tuple_lt t x.
Proof.
  intros Ht Hnot Hx.
  pose proof (sorted_reverse_sorted sc) as Hs.
  rewrite <-(take_drop 3 (sorted_reverse sc)) in Hs.
  apply StronglySorted_app in Hs as (Hcross & _ & _).
  assert (t ∈ drop 3 (sorted_reverse sc)) as Hd.
  { rewrite <-sorted_reverse_Permutation, <-(take_drop 3 (sorted_reverse sc)) in Ht.
    apply elem_of_app in Ht as [?|?]; [done|done]. }
  apply tuple_le_ne_lt; [exact (Hcross x t Hx Hd)|].
  intros ->. done.
Qed.

(** The rows are the best candidates: a disease with at least one match
    that is not printed has fewer matches than every printed row, or as many
    and a smaller name. *)
Theorem omitted_candidates_rank_below
    (symptoms : list string) (d : string) (rules : gset string) :
  (d, rules) ∈ DISEASE_RULES →
  0 < size (tokens symptoms ∩ rules) →
  d ∉ disease <$> results (diagnose symptoms) →
  Forall (λ r, size (tokens symptoms ∩ rules) < matchCount r
               ∨ (size (tokens symptoms ∩ rules) = matchCount r
                  ∧ str_lt d (disease r)))
         (results (diagnose symptoms)).
Proof.
  intros Hin Hpos Hnot. rewrite results_top in Hnot |- *.
  rewrite disease_row in Hnot.
  set (t := (size (tokens symptoms ∩ rules), d)).
  assert (t ∈ scores (tokens symptoms)) as Ht by (apply elem_of_scores; eauto).
  assert (t ∉ top (scores (tokens symptoms))) as Htop.
  { intros Hx. apply Hnot, list_elem_of_fmap. by exists t. }
  apply Forall_forall. intros r (x & -> & Hx)%list_elem_of_fmap.
  pose proof (top_below _ _ _ Ht Htop Hx) as Hlt.
  destruct x as [m dx]. unfold tuple_lt in Hlt. simpl in *.
  destruct Hlt as [?|[-> ?]]; [by left | by right].
Qed.

Lemma omitted_candidates_rank_below_witness :
  Forall (λ r, size (tokens ["fever"; "cough"]
                     ∩ {[ "shortness_breath"; "wheezing"; "cough" ]})
               < matchCount r
               ∨ (size (tokens ["fever"; "cough"]
                        ∩ {[ "shortness_breath"; "wheezing"; "cough" ]})
                  = matchCount r
                  ∧ str_lt "asthma" (disease r)))
         (results (diagnose ["fever"; "cough"])).
Proof.
  apply (omitted_candidates_rank_below ["fever"; "cough"] "asthma"
           {[ "shortness_breath"; "wheezing"; "cough" ]}).
  - apply (bool_decide_unpack _). by vm_compute.
  - vm_compute. lia.
  - apply (bool_decide_unpack _). by vm_compute.
Defined.

(** The number of rows is the number of diseases that share a token with
    the input, cut at three. *)
Theorem results_length (symptoms : list string) :
  length (results (diagnose symptoms))
  = 3 `min` length (filter (λ e : string * gset string,
                              0 < size (tokens symptoms ∩ e.2)) DISEASE_RULES).
Proof. by rewrite results_top, length_fmap, length_top, length_scores. Qed.

(** No disease is printed twice. *)
Theorem results_distinct_diseases (symptoms : list string) :
  NoDup (disease <$> results (diagnose symptoms)).
Proof.
  rewrite results_top, disease_row. unfold top. rewrite fmap_take.
  eapply sublist_NoDup; [|apply sublist_take].
  rewrite (sorted_reverse_Permutation (scores (tokens symptoms))).
  eapply sublist_NoDup; [apply DISEASE_RULES_keys_NoDup | apply scores_names_sublist].
Qed.

Lemma every_disease_has_specialist :
  Forall (λ d, is_Some (DISEASE_TO_SPECIALIST !! d)) (DISEASE_RULES.*1).
Proof. apply (bool_decide_unpack _). by vm_compute. Qed.

(** Every printed specialist is the one [DISEASE_TO_SPECIALIST] gives for
    the disease of the row: the fallback "Consult specialist" of the lookup
    is never taken. *)
Theorem specialist_from_table (symptoms : list string) :
  Forall (λ r, DISEASE_TO_SPECIALIST !! disease r = Some (specialist r))
         (results (diagnose symptoms)).
Proof.
  apply Forall_forall. intros r Hr.
  destruct (elem_of_results _ _ Hr) as (dis & rules & Hin & Hd & _).
  rewrite results_top in Hr.
  apply list_elem_of_fmap in Hr as ([m dx] & -> & _). simpl in *. subst dx.
  pose proof every_disease_has_specialist as Hall.
  rewrite Forall_forall in Hall.
  destruct (Hall dis) as [sp Hsp].
  { apply list_elem_of_fmap. by exists (dis, rules). }
  by rewrite Hsp.
Qed.

Lemma rules_size_le_4 :
  Forall (λ e : string * gset string, size e.2 ≤ 4) DISEASE_RULES.
Proof. apply (bool_decide_unpack _). by vm_compute. Qed.

(** The number of matches of a row is at most four, the largest number of
    symptoms of a disease, and at most the number of tokens of the input. *)
Theorem matchCount_upper_bounds (symptoms : list string) :
  Forall (λ r, matchCount r ≤ 4 ∧ matchCount r ≤ size (tokens symptoms))
         (results (diagnose symptoms)).
Proof.
  apply Forall_forall. intros r (dis & rules & Hin & _ & -> & _)%elem_of_results.
  pose proof rules_size_le_4 as Hall. rewrite Forall_forall in Hall.
  specialize (Hall _ Hin). simpl in Hall. split.
  - etrans; [apply subseteq_size, intersection_subseteq_r|exact Hall].
  - apply subseteq_size, intersection_subseteq_l.
Qed.

(** ** When a message is printed, in terms of the entries *)

Lemma strip_blank_iff s : Str.truthy (Str.strip s) = true ↔ Str.strip s ≠ "".
Proof. by destruct (Str.strip s). Qed.

Lemma tokens_cons s l :
  tokens (s :: l) =
    if decide (Str.strip s = "") then tokens l else {[ normalize s ]} ∪ tokens l.
Proof.
  unfold tokens. rewrite filter_cons.
  destruct (decide (Str.strip s = "")) as [E|E].
  - rewrite decide_False; [done|]. by rewrite E.
  - rewrite decide_True; [done|]. by apply strip_blank_iff.
Qed.

Lemma tokens_app l1 l2 : tokens (l1 ++ l2) = tokens l1 ∪ tokens l2.
Proof.
  unfold tokens. by rewrite filter_app, fmap_app, list_to_set_app_L.
Qed.

Lemma tokens_empty_iff l : tokens l = ∅ ↔ Forall (λ s, Str.strip s = "") l.
Proof.
  rewrite elem_of_equiv_empty_L, Forall_forall. split.
  - intros Hno s Hs. destruct (decide (Str.strip s = "")) as [|Hne]; [done|].
    destruct (Hno (normalize s)). apply elem_of_tokens. by exists s.
  - intros Hall t (s & Hs & Hne & _)%elem_of_tokens. by apply Hne, Hall.
Qed.

Lemma elem_of_ALL_SYMPTOMS s :
  s ∈ ALL_SYMPTOMS ↔ ∃ dis rules, (dis, rules) ∈ DISEASE_RULES ∧ s ∈ rules.
Proof.
  rewrite ALL_SYMPTOMS_Permutation, elem_of_elements, elem_of_union_list. split.
  - intros (rules & ([dis rules'] & -> & Hin)%list_elem_of_fmap & Hs).
    by exists dis, rules'.
  - intros (dis & rules & Hin & Hs). exists rules. split; [|done].
    apply list_elem_of_fmap. by exists (dis, rules).
Qed.

Lemma scores_nonempty_iff sset :
  scores sset ≠ [] ↔ ∃ t, t ∈ sset ∧ t ∈ ALL_SYMPTOMS.
Proof.
  split.
  - destruct (scores sset) as [|t0 sc] eqn:E; [done|]. intros _.
    assert (t0 ∈ scores sset) as (dis & rules & Hin & _ & Hpos)%elem_of_scores
      by (rewrite E; left).
    apply size_pos_elem_of in Hpos as [t [Ht1 Ht2]%elem_of_intersection].
    exists t. split; [done|]. apply elem_of_ALL_SYMPTOMS. by exists dis, rules.
  - intros (t & Ht & (dis & rules & Hin & Hr)%elem_of_ALL_SYMPTOMS) Hnil.
    assert (0 < size (sset ∩ rules)) as Hpos.
    { destruct (size (sset ∩ rules)) eqn:E; [|lia].
      apply size_empty_inv in E. apply leibniz_equiv in E.
      assert (t ∈ sset ∩ rules) as Hx by (by apply elem_of_intersection).
      rewrite E in Hx. by apply elem_of_empty in Hx. }
    assert ((size (sset ∩ rules), dis) ∈ scores sset) as Hs
      by (apply elem_of_scores; eauto).
    rewrite Hnil in Hs. by apply elem_of_nil in Hs.
Qed.

Lemma results_nonempty_scores symptoms :
  results (diagnose symptoms) ≠ [] ↔ scores (tokens symptoms) ≠ [].
Proof.
  rewrite results_top. split.
  - intros Hr Hs. by rewrite Hs in Hr.
  - intros Hs Hr. apply fmap_nil_inv in Hr. apply (f_equal length) in Hr.
    rewrite length_top in Hr. destruct (scores (tokens symptoms)); [done|].
    simpl in Hr. lia.
Qed.

(** "No symptoms entered." is printed exactly when every entry is empty
    after trimming (in particular for the empty list). *)
Theorem no_symptoms_iff_all_blank (symptoms : list string) :
  diagnose symptoms = Signal "No symptoms entered."
  ↔ Forall (λ s, Str.strip s = "") symptoms.
Proof.
  rewrite <-tokens_empty_iff. unfold diagnose. cbv zeta.
  destruct (decide (tokens symptoms = ∅)) as [He|He]; [done|].
  split; [|done]. by destruct (scores (tokens symptoms)).
Qed.

(** A table is printed exactly when a token of the input is one of the
    symptoms listed in [ALL_SYMPTOMS]. *)
Theorem results_iff_known_symptom (symptoms : list string) :
  results (diagnose symptoms) ≠ []
  ↔ ∃ t, t ∈ tokens symptoms ∧ t ∈ ALL_SYMPTOMS.
Proof. by rewrite results_nonempty_scores, scores_nonempty_iff. Qed.

Lemma scores_ext sset1 sset2 :
  (∀ dis rules, (dis, rules) ∈ DISEASE_RULES → sset1 ∩ rules = sset2 ∩ rules) →
  scores sset1 = scores sset2.
Proof.
  intros Hext. unfold scores. apply list_omap_ext, Forall_Forall2_diag.
  apply Forall_forall. intros [dis rules] Hin. by rewrite (Hext dis rules Hin).
Qed.

(** An entry whose token is none of the listed symptoms changes nothing,
    when the other entries give at least one token. *)
Theorem unknown_entry_ignored (s : string) (symptoms : list string) :
  tokens symptoms ≠ ∅ →
  normalize s ∉ ALL_SYMPTOMS →
  diagnose (s :: symptoms) = diagnose symptoms.
Proof.
  intros Hne Hunk. unfold diagnose. cbv zeta. rewrite tokens_cons.
  destruct (decide (Str.strip s = "")) as [|Hs]; [done|].
  rewrite (scores_ext ({[normalize s]} ∪ tokens symptoms) (tokens symptoms)).
  - rewrite !decide_False; [done|done|].
    intros [E _]%empty_union_L. by apply (non_empty_inhabited_L (normalize s)) in E;
      [|apply elem_of_singleton].
  - intros dis rules Hin. apply set_eq. intros t.
    rewrite !elem_of_intersection, elem_of_union, elem_of_singleton.
    split; [|tauto]. intros [[->|?] ?]; [|done].
    destruct Hunk. apply elem_of_ALL_SYMPTOMS. by exists dis, rules.
Qed.

Lemma unknown_entry_ignored_witness :
  diagnose ["sneezing"; "fever"] = diagnose ["fever"].
Proof.
  apply (unknown_entry_ignored "sneezing" ["fever"]).
  - apply (bool_decide_unpack _). by vm_compute.
  - apply (bool_decide_unpack _). by vm_compute.
Defined.

(** Entries can only add matches: when the tokens of one input are among
    the tokens of another and the first gives a table, so does the second. *)
Theorem more_tokens_keep_match (symptoms1 symptoms2 : list string) :
  tokens symptoms1 ⊆ tokens symptoms2 →
  results (diagnose symptoms1) ≠ [] →
  results (diagnose symptoms2) ≠ [].
Proof.
  rewrite !results_nonempty_scores, !scores_nonempty_iff.
  intros Hsub (t & Ht & Hk). exists t. split; [by apply Hsub | done].
Qed.

Lemma more_tokens_keep_match_witness :
  results (diagnose ["itchy eyes"; "cough"]) ≠ [].
Proof.
  apply (more_tokens_keep_match ["cough"] ["itchy eyes"; "cough"]).
  - apply (bool_decide_unpack _). by vm_compute.
  - apply (bool_decide_unpack _). by vm_compute.
Defined.

Lemma normalize_normalize s : normalize (normalize s) = normalize s.
Proof.
  unfold normalize at 1. rewrite strip_normalize, lower_normalize.
  unfold normalize. apply StrFacts.replace_idemp.
Qed.

Lemma normalize_blank_iff s : normalize s = "" ↔ Str.strip s = "".
Proof.
  unfold normalize. split.
  - by intros ?%StrFacts.map_nil_inv%StrFacts.map_nil_inv.
  - by intros ->.
Qed.

(** Entries that are already tokens give the same outcome as the raw
    entries they come from. *)
Theorem diagnose_normalized_entries (symptoms : list string) :
  diagnose (normalize <$> symptoms) = diagnose symptoms.
Proof.
  assert (tokens (normalize <$> symptoms) = tokens symptoms) as E;
    [|unfold diagnose; by rewrite E].
  apply set_eq. intros t. rewrite !elem_of_tokens. split.
  - intros (s' & (s & -> & Hs)%list_elem_of_fmap & Hne & ->).
    exists s. rewrite strip_normalize, normalize_blank_iff in Hne.
    by rewrite normalize_normalize.
  - intros (s & Hs & Hne & ->). exists (normalize s). split_and!.
    + apply list_elem_of_fmap. by exists s.
    + by rewrite strip_normalize, normalize_blank_iff.
    + by rewrite normalize_normalize.
Qed.

(** ** The knowledge base as a whole *)

(** Every symptom of the printed list is a token as it stands, is also
    reached by typing it with spaces for the underscores, and gives a table
    when entered alone. *)
Theorem listed_symptoms_are_tokens :
  Forall (λ s, normalize s = s
               ∧ normalize (Str.replace "_" " " s) = s
               ∧ results (diagnose [s]) ≠ [])
         ALL_SYMPTOMS.
Proof. apply (bool_decide_unpack _). by vm_compute. Qed.

(** Every disease can be reached: entering exactly the symptoms of a
    disease prints that disease first, with all its symptoms matched. *)
Theorem own_symptoms_rank_first :
  Forall (λ e : string * gset string,
            head (results (diagnose (elements e.2))) = Some (row (size e.2, e.1)))
         DISEASE_RULES.
Proof. apply (bool_decide_unpack _). by vm_compute. Qed.

(** In the demonstration run every canned input prints a table, and its
    first row matches both entries of the input. *)
Theorem demo_all_match :
  Forall (λ o, ∃ r rest, o = Likely (r :: rest) ∧ matchCount r = 2) demo.
Proof. vm_compute. repeat constructor; by eexists _, _. Qed.

(** ** Splitting a line at the commas *)

Section splitting.
Variable sep : ascii.

Lemma str_split_nonempty s : str_split sep s ≠ [].
Proof.
  destruct s as [|ch r]; simpl; [done|].
  destruct (Ascii.eqb ch sep); [done|]. by destruct (str_split sep r).
Qed.

Lemma str_split_cons_sep r : str_split sep (String sep r) = "" :: str_split sep r.
Proof. simpl. by rewrite Ascii.eqb_refl. Qed.

Lemma str_split_cons_other ch r :
  ch ≠ sep →
  ∃ p ps, str_split sep r = p :: ps ∧ str_split sep (String ch r) = String ch p :: ps.
Proof.
  intros Hne. simpl. destruct (Ascii.eqb_spec ch sep) as [|_]; [done|].
  pose proof (str_split_nonempty r) as Hr.
  destruct (str_split sep r) as [|p ps]; [done|]. by exists p, ps.
Qed.

Lemma join_cons_char ch p ps :
  Str.join (String sep "") (String ch p :: ps)
  = String ch (Str.join (String sep "") (p :: ps)).
Proof. by destruct ps. Qed.

Lemma join_cons_empty ps :
  ps ≠ [] → Str.join (String sep "") ("" :: ps) = String sep (Str.join (String sep "") ps).
Proof. by destruct ps. Qed.

Lemma join_str_split s : Str.join (String sep "") (str_split sep s) = s.
Proof.
  induction s as [|ch r IH]; [done|].
  destruct (decide (ch = sep)) as [->|Hne].
  - rewrite str_split_cons_sep, join_cons_empty, IH; [done|apply str_split_nonempty].
  - destruct (str_split_cons_other ch r Hne) as (p & ps & E1 & ->).
    by rewrite join_cons_char, <-E1, IH.
Qed.

Lemma str_split_pieces s :
  Forall (λ p, ∀ x, x ∈ chars p → x ∈ chars s ∧ x ≠ sep) (str_split sep s).
Proof.
  induction s as [|ch r IH].
  - constructor; [|constructor]. by intros x ?%elem_of_nil.
  - destruct (decide (ch = sep)) as [->|Hne].
    + rewrite str_split_cons_sep. constructor; [by intros x ?%elem_of_nil|].
      eapply Forall_impl; [exact IH|]. intros p Hp x Hx.
      destruct (Hp x Hx). split; [by right|done].
    + destruct (str_split_cons_other ch r Hne) as (p & ps & E1 & ->).
      rewrite E1 in IH. apply Forall_cons in IH as [Hp Hps]. constructor.
      * intros x [->|Hx]%elem_of_cons; [split; [by left|done]|].
        destruct (Hp x Hx). split; [by right|done].
      * eapply Forall_impl; [exact Hps|]. intros q Hq x Hx.
        destruct (Hq x Hx). split; [by right|done].
Qed.

Lemma length_str_split s : length (str_split sep s) = S (count_char sep s).
Proof.
  unfold count_char, chars. induction s as [|ch r IH]; [done|].
  cbn [String.list_ascii_of_string]. rewrite filter_cons.
  destruct (decide (ch = sep)) as [->|Hne].
  - rewrite str_split_cons_sep. simpl. by rewrite IH.
  - destruct (str_split_cons_other ch r Hne) as (p & ps & E1 & ->).
    rewrite E1 in IH. done.
Qed.

Lemma str_split_no_sep p : sep ∉ chars p → str_split sep p = [p].
Proof.
  induction p as [|ch r IH]; [done|]. intros Hno.
  apply not_elem_of_cons in Hno as [Hne Hr].
  destruct (str_split_cons_other ch r (not_eq_sym Hne)) as (q & qs & E1 & ->).
  rewrite (IH Hr) in E1. by injection E1 as <- <-.
Qed.

Lemma str_split_piece_sep p q :
  sep ∉ chars p →
  str_split sep (p +:+ String sep q) = p :: str_split sep q.
Proof.
  induction p as [|ch r IH]; intros Hno.
  - apply str_split_cons_sep.
  - apply not_elem_of_cons in Hno as [Hne Hr].
    change (String ch r +:+ String sep q) with (String ch (r +:+ String sep q)).
    destruct (str_split_cons_other ch (r +:+ String sep q) (not_eq_sym Hne))
      as (x & xs & E1 & ->).
    rewrite (IH Hr) in E1. by injection E1 as <- <-.
Qed.

Lemma str_split_join l :
  Forall (λ p, sep ∉ chars p) l → l ≠ [] →
  str_split sep (Str.join (String sep "") l) = l.
Proof.
  induction 1 as [|p l Hp Hl IH]; [done|]. intros _.
  destruct l as [|q l']; [by apply str_split_no_sep|].
  change (Str.join (String sep "") (p :: q :: l'))
    with (p +:+ String sep "" +:+ Str.join (String sep "") (q :: l')).
  change (String sep "" +:+ Str.join (String sep "") (q :: l'))
    with (String sep (Str.join (String sep "") (q :: l'))).
  rewrite str_split_piece_sep by done. by rewrite IH.
Qed.

End splitting.

(** Joining the pieces of a line with the separator gives the line back:
    [sep.join(s.split(sep)) == s]. *)
Theorem split_then_join (sep : ascii) (s : string) :
  Str.join (String sep "") (str_split sep s) = s.
Proof. apply join_str_split. Qed.

(** A line always splits into at least one piece, one more than it has
    separators, and no piece holds a separator or a code point that is not
    in the line. *)
Theorem split_pieces (sep : ascii) (s : string) :
  length (str_split sep s) = S (count_char sep s)
  ∧ Forall (λ p, (sep ∉ chars p) ∧ (chars p ⊆ chars s)) (str_split sep s).
Proof.
  split; [apply length_str_split|].
  eapply Forall_impl; [apply str_split_pieces|]. intros p Hp. split.
  - intros Hx. by destruct (Hp sep Hx).
  - intros x Hx. by destruct (Hp x Hx).
Qed.

(** Splitting the join of pieces without separator gives the pieces back,
    for at least one piece. *)
Theorem join_then_split (sep : ascii) (l : list string) :
  Forall (λ p, sep ∉ chars p) l → l ≠ [] →
  str_split sep (Str.join (String sep "") l) = l.
Proof. apply str_split_join. Qed.

Lemma join_then_split_witness :
  str_split "," (Str.join "," ["fever"; " cough"; ""]) = ["fever"; " cough"; ""].
Proof.
  apply (join_then_split "," ["fever"; " cough"; ""]).
  - apply (bool_decide_unpack _). by vm_compute.
  - discriminate.
Defined.

(** ** Input lines and the interactive loop *)

Lemma lstrip_all_space s :
  Forall (λ x, Str.isspace x = true) (chars s) → Str.lstrip s = "".
Proof.
  induction s as [|ch r IH]; [done|]. intros [Hc Hr]%Forall_cons.
  simpl. rewrite Hc. by apply IH.
Qed.

Lemma strip_all_space s :
  Forall (λ x, Str.isspace x = true) (chars s) → Str.strip s = "".
Proof. intros H. unfold Str.strip. by rewrite lstrip_all_space. Qed.

(** A line made of white space and commas only (in particular the empty
    line) prints "No symptoms entered.". *)
Theorem blank_line_no_symptoms (inp : string) :
  Forall (λ x, Str.isspace x = true ∨ x = ","%char) (chars inp) →
  diagnose (str_split "," inp) = Signal "No symptoms entered.".
Proof.
  intros Hline.
  assert (tokens (str_split "," inp) = ∅) as E.
  { apply tokens_empty_iff.
    eapply Forall_impl; [apply str_split_pieces|]. intros p Hp. simpl in Hp.
    apply strip_all_space, Forall_forall. intros x Hx.
    destruct (Hp x Hx) as [Hin Hne].
    rewrite Forall_forall in Hline. by destruct (Hline x Hin). }
  unfold diagnose. by rewrite E.
Qed.

Lemma blank_line_no_symptoms_witness :
  diagnose (str_split "," " , ,,  ") = Signal "No symptoms entered.".
Proof.
  apply (blank_line_no_symptoms " , ,,  ").
  apply (bool_decide_unpack _). by vm_compute.
Defined.



(** The loop diagnoses the lines in order, one outcome a line, up to the
    first line that is "exit", "quit" or "q" in any letter case; the lines
    after it are not read.  Without such a line it diagnoses every line and
    ends at the end of the input. *)
Theorem interactive_until_exit (lines : list string) :
  Forall (λ inp, is_exit inp = false) lines →
  interactive lines = (λ inp, diagnose (str_split "," inp)) <$> lines
  ∧ ∀ w rest, is_exit w = true →
      interactive (lines ++ w :: rest)
      = (λ inp, diagnose (str_split "," inp)) <$> lines.
Proof.
  induction 1 as [|inp l Hinp Hl [IH1 IH2]]; split.
  - done.
  - intros w rest Hw. simpl. by rewrite Hw.
  - simpl. by rewrite Hinp, IH1.
  - intros w rest Hw. simpl. by rewrite Hinp, (IH2 w rest Hw).
Qed.

Lemma interactive_until_exit_witness :
  interactive (["fever, cough"; " exit"] ++ "Quit" :: ["headache"])
  = (λ inp, diagnose (str_split "," inp)) <$> ["fever, cough"; " exit"].
Proof.
  apply (interactive_until_exit ["fever, cough"; " exit"]).
  - apply (bool_decide_unpack _). by vm_compute.
  - by vm_compute.
Defined.

(** ** Colours *)

(** With [NO_COLOR] set to "1", on a Windows console without [ANSICON],
    with an output that is not a terminal, or with [TERM] unset, empty or
    "dumb", colours are off: every style constant is empty and [c] gives
    its text back unchanged. *)
Theorem plain_output (e : environ) (text style : string) :
  NO_COLOR e = Some "1"
  ∨ (String.prefix "win" (platform e) = true ∧ ANSICON e = None)
  ∨ stdout_isatty e = false
  ∨ TERM e = None ∨ TERM e = Some "" ∨ TERM e = Some "dumb" →
  USE_COLOR e = false
  ∧ c e text style = text
  ∧ [RESET e; BOLD e; DIM e; CYAN e; GREEN e; YELLOW e; MAGENTA e; RED e; BLUE e]
    = replicate 9 "".
Proof.
  intros Hplain.
  assert (USE_COLOR e = false) as E.
  { unfold USE_COLOR, _supports_color, getenv.
    destruct (decide (default "0" (NO_COLOR e) = "1")) as [|Hnc]; [done|].
    destruct Hplain as [H|[[H1 H2]|[H|H]]].
    - by rewrite H in Hnc.
    - by rewrite H1, H2.
    - rewrite H. by destruct (_ && _).
    - destruct (_ && _); [done|]. destruct (negb _); [done|].
      by destruct H as [->|[->| ->]]. }
  unfold c, RESET, BOLD, DIM, CYAN, GREEN, YELLOW, MAGENTA, RED, BLUE, style_const.
  by rewrite E.
Qed.

Lemma plain_output_witness :
  USE_COLOR (mkEnviron None None (Some "xterm") "linux" false) = false
  ∧ c (mkEnviron None None (Some "xterm") "linux" false) "Goodbye!" "" = "Goodbye!"
  ∧ [RESET (mkEnviron None None (Some "xterm") "linux" false);
     BOLD (mkEnviron None None (Some "xterm") "linux" false);
     DIM (mkEnviron None None (Some "xterm") "linux" false);
     CYAN (mkEnviron None None (Some "xterm") "linux" false);
     GREEN (mkEnviron None None (Some "xterm") "linux" false);
     YELLOW (mkEnviron None None (Some "xterm") "linux" false);
     MAGENTA (mkEnviron None None (Some "xterm") "linux" false);
     RED (mkEnviron None None (Some "xterm") "linux" false);
     BLUE (mkEnviron None None (Some "xterm") "linux" false)]
    = replicate 9 "".
Proof.
  apply (plain_output (mkEnviron None None (Some "xterm") "linux" false) "Goodbye!" "").
  right; right; left. reflexivity.
Defined.

(** When colours are on, [c] puts the style before the text and the reset
    sequence after it; and colours are on only with a terminal as output, a
    [TERM] other than empty and "dumb", [NO_COLOR] other than "1" and, on
    Windows, [ANSICON] set. *)
Theorem coloured_output (e : environ) (text style : string) :
  USE_COLOR e = true →
  c e text style = style +:+ text +:+ String ESC "[0m"
  ∧ stdout_isatty e = true
  ∧ NO_COLOR e ≠ Some "1"
  ∧ (String.prefix "win" (platform e) = true → is_Some (ANSICON e))
  ∧ ∃ term, TERM e = Some term ∧ term ≠ "" ∧ term ≠ "dumb".
Proof.
  intros E. split.
  { unfold c, RESET, style_const. by rewrite E. }
  unfold USE_COLOR, _supports_color, getenv in E.
  destruct (decide (default "0" (NO_COLOR e) = "1")) as [|Hnc]; [done|].
  destruct (String.prefix "win" (platform e) && bool_decide (ANSICON e = None))
    eqn:Hwin; [done|].
  destruct (stdout_isatty e); [|done]. simpl in E.
  split_and!; [done|by intros H; rewrite H in Hnc| |].
  - intros Hp. rewrite Hp in Hwin. simpl in Hwin.
    apply bool_decide_eq_false in Hwin. by destruct (ANSICON e).
  - destruct (TERM e) as [term|]; [|done]. exists term. simpl in E.
    apply andb_true_iff in E as [_ Hn%bool_decide_eq_true].
    split_and!; [done|..]; intros ->; apply Hn.
    + by right; left.
    + by left.
Qed.

Lemma coloured_output_witness :
  c (mkEnviron None None (Some "xterm") "linux" true) "Goodbye!" ""
  = "" +:+ "Goodbye!" +:+ String ESC "[0m"
  ∧ stdout_isatty (mkEnviron None None (Some "xterm") "linux" true) = true
  ∧ NO_COLOR (mkEnviron None None (Some "xterm") "linux" true) ≠ Some "1"
  ∧ (String.prefix "win" (platform (mkEnviron None None (Some "xterm") "linux" true))
     = true
     → is_Some (ANSICON (mkEnviron None None (Some "xterm") "linux" true)))
  ∧ ∃ term, TERM (mkEnviron None None (Some "xterm") "linux" true) = Some term
            ∧ term ≠ "" ∧ term ≠ "dumb".
Proof.
  apply (coloured_output (mkEnviron None None (Some "xterm") "linux" true) "Goodbye!" "").
  reflexivity.
Defined.
